(** * Verification of the diagram viewer and export buttons

    A shallow embedding of [ExcalidrawArticle.tsx] (colour adapter, image
    locator, modal navigation) and of [ExportButtons.tsx] (print and download
    paths), with the properties of the specification proved on it.

    JavaScript values of type [any] are modelled by [JsVal]; numbers are
    IEEE-754 binary64 values, which are Rocq's primitive floats; strings are
    sequences of code units, an [ascii] standing for one code unit. *)

From Stdlib Require Import ZArith Ascii String Floats Uint63 Lia.
From stdpp Require Import base option list gmap strings pretty.

#[local] Set Warnings "-register-all,-inexact-float,-clear-no-such-hyp".
#[local] Open Scope Z_scope.

(* ===================================================================== *)
(** * JavaScript values *)
(* ===================================================================== *)

Module Js.

(** A value of TypeScript type [any], as far as drawing data (parsed JSON)
    can produce one.  Objects hold their own properties only. *)
Inductive JsVal : Type :=
  | JUndefined
  | JNull
  | JBool (b : bool)
  | JNum (x : float)
  | JStr (s : string)
  | JArr (items : list JsVal)
  | JObj (props : gmap string JsVal).

(** The outcome of code that may throw.  The only exception the modelled
    code can raise is the [TypeError] of reading a property of [null] or
    [undefined], or of calling something that is not a function. *)
Inductive result (A : Type) : Type :=
  | Ok (a : A)
  | TypeError.
Arguments Ok {A} a.
Arguments TypeError {A}.

#[global] Instance result_ret : MRet result := fun A a => Ok a.

#[global] Instance result_bind : MBind result := fun A B k r =>
  match r with
  | Ok a => k a
  | TypeError => TypeError
  end.

(** [Number::toString] belongs to the JavaScript runtime; the development is
    parametric in it. *)
Class NumberToString := number_to_string : float -> string.

(** ToBoolean. *)
Definition truthy (v : JsVal) : bool :=
  match v with
  | JUndefined | JNull => false
  | JBool b => b
  | JNum x => negb (PrimFloat.eqb x 0 || negb (PrimFloat.eqb x x))
  | JStr s => negb (String.eqb s "")
  | JArr _ | JObj _ => true
  end.

(** [v === undefined || v === null]. *)
Definition nullish (v : JsVal) : bool :=
  match v with
  | JUndefined | JNull => true
  | _ => false
  end.

(** [a || b] *)
Definition js_or (a b : JsVal) : JsVal := if truthy a then a else b.

(** [a ?? b] *)
Definition js_coalesce (a b : JsVal) : JsVal := if nullish a then b else a.

(** [typeof v === 'string'] *)
Definition is_string (v : JsVal) : bool :=
  match v with
  | JStr _ => true
  | _ => false
  end.

(** [v === s] for a string literal [s]. *)
Definition strict_eq_str (v : JsVal) (s : string) : bool :=
  match v with
  | JStr s' => String.eqb s' s
  | _ => false
  end.

(** [v.name] for a property name that no built-in prototype defines (the
    code reads [type], [fileId], [id], [x], [y], [width], [height],
    [dataURL], [data], [mimeType], [name], [strokeColor] and
    [backgroundColor] only): the own property of an object, [undefined] on
    every other value, and a [TypeError] on [null] and [undefined]. *)
Definition get_prop (v : JsVal) (name : string) : result JsVal :=
  match v with
  | JUndefined | JNull => TypeError
  | JObj props => Ok (default JUndefined (props !! name))
  | _ => Ok JUndefined
  end.

(** A property read on a value already known to be neither [null] nor
    [undefined], where it cannot throw. *)
Definition prop (v : JsVal) (name : string) : JsVal :=
  match v with
  | JObj props => default JUndefined (props !! name)
  | _ => JUndefined
  end.

Section ToString.
Context {N : NumberToString}.

(** ToString, as used by template literals and by property keys.  An
    array joins its items with commas, [null] and [undefined] items
    giving the empty string. *)
Fixpoint to_string (v : JsVal) : string :=
  match v with
  | JUndefined => "undefined"
  | JNull => "null"
  | JBool true => "true"
  | JBool false => "false"
  | JNum x => number_to_string x
  | JStr s => s
  | JArr items =>
      (fix join (l : list JsVal) : string :=
         match l with
         | [] => ""
         | x :: rest =>
             let sx := match x with
                       | JUndefined | JNull => ""
                       | _ => to_string x
                       end in
             match rest with
             | [] => sx
             | _ => sx +:+ "," +:+ join rest
             end
         end) items
  | JObj _ => "[object Object]"
  end.
End ToString.

End Js.

Export Js.

(* ===================================================================== *)
(** * Colour adapter ([isDarkColor], [toLight]) *)
(* ===================================================================== *)

Module Color.

(** The value of a hexadecimal digit, in either case. *)
Definition hex_value (c : ascii) : option Z :=
  let n := Z.of_N (N_of_ascii c) in
  if (48 <=? n) && (n <=? 57) then Some (n - 48)
  else if (97 <=? n) && (n <=? 102) then Some (n - 87)
  else if (65 <=? n) && (n <=? 70) then Some (n - 55)
  else None.

(** The character class [[0-9a-f]] under the [i] flag. *)
Definition is_hex_digit (c : ascii) : bool :=
  match hex_value c with
  | Some _ => true
  | None => false
  end.

(** [/^#?([0-9a-f]{6})$/i.exec(hex)]: the captured group of a match.  When
    [hex] starts with [#] the optional prefix has to consume it, since [#]
    is no hexadecimal digit. *)
Definition hex6_exec (hex : string) : option string :=
  let digits := match hex with
                | String "#" rest => rest
                | _ => hex
                end in
  if (String.length digits =? 6)%nat
     && forallb is_hex_digit (list_ascii_of_string digits)
  then Some digits
  else None.

(** [parseInt(s, 16)] on a string of hexadecimal digits: the digits are read
    up to the first character that is none.  (With no leading digit
    [parseInt] gives NaN, which the shifts and masks below turn into 0 as
    well.) *)
Fixpoint parse_hex (acc : Z) (s : string) : Z :=
  match s with
  | EmptyString => acc
  | String c rest =>
      match hex_value c with
      | Some d => parse_hex (16 * acc + d) rest
      | None => acc
      end
  end.

Definition parseInt16 (s : string) : Z := parse_hex 0 s.

(** ToInt32: the operands of [>>] and [&] wrap to 32-bit signed integers. *)
Definition to_int32 (z : Z) : Z := (z + 2 ^ 31) mod 2 ^ 32 - 2 ^ 31.

(** [a >> n] *)
Definition sar (a n : Z) : Z := Z.shiftr (to_int32 a) n.

(** [a & b] *)
Definition band (a b : Z) : Z := Z.land (to_int32 a) (to_int32 b).

(** An integer in the range of the colour channels as a number. *)
Definition num_of_Z (z : Z) : float := PrimFloat.of_uint63 (Uint63.of_Z z).

(** [0.2126 * r + 0.7152 * g + 0.0722 * b] in binary64 arithmetic. *)
Definition luma (r g b : Z) : float :=
  (0.2126 * num_of_Z r + 0.7152 * num_of_Z g + 0.0722 * num_of_Z b)%float.

Definition isDarkColor (hex : string) : bool :=
  match hex6_exec hex with
  | None => false
  | Some digits =>
      let int := parseInt16 digits in
      let r := band (sar int 16) 255 in
      let g := band (sar int 8) 255 in
      let b := band int 255 in
      (luma r g b <? 90)%float
  end.

Definition toLight (hex : JsVal) : JsVal :=
  if negb (truthy hex) || negb (is_string hex) then hex
  else if strict_eq_str hex "transparent" then hex
  else match hex with
       | JStr s => if isDarkColor s then JStr "#e5e7eb" else hex
       | _ => hex
       end.

(** ** The colour adapter in the words of the specification *)

(** The channels of a six-hex-digit colour, optionally prefixed by [#]:
    each pair of digits is one channel.  [None] for any other string. *)
Definition channels (c : string) : option (Z * Z * Z) :=
  let digits := match c with
                | String "#" rest => rest
                | _ => c
                end in
  match list_ascii_of_string digits with
  | [d1; d2; d3; d4; d5; d6] =>
      v1 ← hex_value d1; v2 ← hex_value d2; v3 ← hex_value d3;
      v4 ← hex_value d4; v5 ← hex_value d5; v6 ← hex_value d6;
      Some (16 * v1 + v2, 16 * v3 + v4, 16 * v5 + v6)
  | _ => None
  end.

(** The luma of the specification, in exact arithmetic and scaled by 10000:
    [luma < 90] reads [exact_luma r g b < 900000]. *)
Definition exact_luma (r g b : Z) : Z := 2126 * r + 7152 * g + 722 * b.

(** The two colours whose luma is exactly 90 and rounds below it. *)
Definition rounds_below (r g b : Z) : bool :=
  ((r =? 42) && (g =? 97) && (b =? 162))
  || ((r =? 107) && (g =? 80) && (b =? 139)).

(** ** A table of the luma test over all colours

    For fixed red and green the colours that [isDarkColor] takes for dark
    are those whose blue is below a bound; [dark_count] is that bound in
    exact arithmetic and [check_row] compares it with the floating-point
    test on every blue. *)

(** The blue terms [0.0722 * b] for [b] from 0 to 255. *)
Definition blue_terms : list float :=
  Eval vm_compute in
    map (fun b => (0.0722 * num_of_Z b)%float) (seqZ 0 256).

Definition dark_count (r g : Z) : nat :=
  let rest := 900000 - 2126 * r - 7152 * g in
  let exact := Z.min 256 (Z.max 0 ((rest + 721) / 722)) in
  Z.to_nat (if ((r =? 42) && (g =? 97)) || ((r =? 107) && (g =? 80))
            then exact + 1 else exact).

(** The first [k] of the terms [zs] added to [s] are below 90 and the
    others are not. *)
Fixpoint check_row (s : float) (zs : list float) (k : nat) : bool :=
  match zs with
  | [] => true
  | z :: zs' =>
      match k with
      | O => if (s + z <? 90)%float then false else check_row s zs' O
      | S k' => if (s + z <? 90)%float then check_row s zs' k' else false
      end
  end.

(** The row of the table for one red and one green. *)
Definition table_entry (r g : Z) : bool :=
  check_row (0.2126 * num_of_Z r + 0.7152 * num_of_Z g)%float
            blue_terms (dark_count r g).

End Color.

(* ===================================================================== *)
(** * Image locator ([identifyImages]) and the viewer's render data *)
(* ===================================================================== *)

Module Locator.

(** [interface ImageInfo].  The fields are copied from values of type
    [any], so they hold whatever the drawing data holds. *)
Record ImageInfo : Type := {
  id : JsVal;
  fileId : JsVal;
  x : JsVal;
  y : JsVal;
  width : JsVal;
  height : JsVal;
  fileName : JsVal;
  mimeType : JsVal;
  dataUrl : JsVal;
}.

Section Identify.
Context {N : NumberToString}.

(** [files[fileId]]: the own property of the asset map under the key that
    [fileId] converts to; [undefined] when there is none.  (The members
    that a plain object inherits, such as [constructor], are not part of
    the map.) *)
Definition lookup_file (files : gmap string JsVal) (fileId : JsVal) : JsVal :=
  default JUndefined (files !! to_string fileId).

(** The [if (fileData) { ... }] block: the values of [dataUrl], [fileName]
    and [mimeType] after it.  [fileData] is truthy inside the block, so its
    property reads cannot throw. *)
Definition resolve (fileData fileId : JsVal) : JsVal * JsVal * JsVal :=
  if truthy fileData then
    let dataUrl :=
      if truthy (prop fileData "dataURL") then prop fileData "dataURL"
      else if truthy (prop fileData "data") then
        let mime := js_or (prop fileData "mimeType") (JStr "image/png") in
        JStr ("data:" +:+ to_string mime +:+ ";base64,"
                +:+ to_string (prop fileData "data"))
      else JUndefined in
    let fileName :=
      js_or (js_or (prop fileData "name") (prop fileData "id")) fileId in
    let mimeType := js_or (prop fileData "mimeType") (JStr "image/png") in
    (dataUrl, fileName, mimeType)
  else (JUndefined, JUndefined, JUndefined).

(** The body of [for (const element of elements)]: the array [images]
    after one iteration. *)
Definition identifyImages_body (files : gmap string JsVal)
    (images : list ImageInfo) (element : JsVal) : result (list ImageInfo) :=
  type ← get_prop element "type";
  if strict_eq_str type "image" then
    fileId ← get_prop element "fileId";
    if truthy fileId then
      let fileData := lookup_file files fileId in
      let '(dataUrl, fileName, mimeType) := resolve fileData fileId in
      eid ← get_prop element "id";
      ex ← get_prop element "x";
      ey ← get_prop element "y";
      ew ← get_prop element "width";
      eh ← get_prop element "height";
      mret (images ++ [ {| id := eid;
                           fileId := fileId;
                           x := js_coalesce ex (JNum 0);
                           y := js_coalesce ey (JNum 0);
                           width := js_coalesce ew (JNum 0);
                           height := js_coalesce eh (JNum 0);
                           fileName := fileName;
                           mimeType := mimeType;
                           dataUrl := dataUrl |} ])
    else mret images
  else mret images.

Fixpoint identifyImages_loop (files : gmap string JsVal)
    (elements : list JsVal) (images : list ImageInfo)
    : result (list ImageInfo) :=
  match elements with
  | [] => mret images
  | element :: rest =>
      images' ← identifyImages_body files images element;
      identifyImages_loop files rest images'
  end.

(** [identifyImages(elements, files = {})] *)
Definition identifyImages (elements : list JsVal)
    (files : option (gmap string JsVal)) : result (list ImageInfo) :=
  identifyImages_loop (default ∅ files) elements [].

(** The descriptor that an iteration pushes for [element]. *)
Definition descriptor (files : gmap string JsVal) (element : JsVal)
    : ImageInfo :=
  let fileId := prop element "fileId" in
  let '(dataUrl, fileName, mimeType) :=
    resolve (lookup_file files fileId) fileId in
  {| id := prop element "id";
     fileId := fileId;
     x := js_coalesce (prop element "x") (JNum 0);
     y := js_coalesce (prop element "y") (JNum 0);
     width := js_coalesce (prop element "width") (JNum 0);
     height := js_coalesce (prop element "height") (JNum 0);
     fileName := fileName;
     mimeType := mimeType;
     dataUrl := dataUrl |}.

(** ** The locator in the words of the specification *)

(** An element whose type tag is "image" and whose asset reference is
    non-empty. *)
Definition qualifies (element : JsVal) : bool :=
  strict_eq_str (prop element "type") "image"
  && truthy (prop element "fileId").





End Identify.

(** ** The render data of the viewer (the [data] memo) *)

(** The own enumerable properties that an object spread [{...v}] copies:
    those of an object, the indices of an array or of a string, none of any
    other value. *)
Definition spread_props (v : JsVal) : gmap string JsVal :=
  match v with
  | JObj props => props
  | JArr items => list_to_map (imap (fun i item => (pretty i, item)) items)
  | JStr s =>
      list_to_map (imap (fun i c => (pretty i, JStr (String c EmptyString)))
                        (list_ascii_of_string s))
  | _ => ∅
  end.

(** [if (typeof next[name] === 'string') next[name] = toLight(next[name])] *)
Definition lighten (name : string) (next : gmap string JsVal)
    : gmap string JsVal :=
  match next !! name with
  | Some c => if is_string c then <[name := Color.toLight c]> next else next
  | None => next
  end.

(** The callback of [(articleData.elements ?? []).map(...)]. *)
Definition transformElement (isDark : bool) (el : JsVal) : JsVal :=
  if negb isDark then el
  else JObj (lighten "backgroundColor" (lighten "strokeColor" (spread_props el))).

(** [{...(appState || {}), viewBackgroundColor: null, viewModeEnabled: true,
     exportScale: 1, theme}] *)
Definition renderAppState (appState : JsVal) (theme : string)
    : gmap string JsVal :=
  <["theme" := JStr theme]>
    (<["exportScale" := JNum 1]>
       (<["viewModeEnabled" := JBool true]>
          (<["viewBackgroundColor" := JNull]>
             (spread_props (js_or appState (JObj ∅)))))).

(** [interface ExcalidrawArticleData]; an absent member is [None]. *)
Record ExcalidrawArticleData : Type := {
  elements : option (list JsVal);
  appState : JsVal;
  files : option (gmap string JsVal);
}.



(** The data of a forced light render ([render(true)], [generateLightSVG]):
    the original elements under the light theme. *)
Definition lightRenderData (articleData : ExcalidrawArticleData)
    : list JsVal * gmap string JsVal * gmap string JsVal :=
  (default [] (elements articleData),
   renderAppState (appState articleData) "light",
   default ∅ (files articleData)).

End Locator.

(* ===================================================================== *)
(** * The modal of the viewer *)
(* ===================================================================== *)

Module Modal.
Import Locator.

(** [a === b].  Primitives are compared by value ([NaN] differs from
    itself).  Arrays and objects are equal when they are one reference;
    references are not part of [JsVal], and every statement that goes
    through [strict_eq] assumes string operands, the declared type of the
    identifiers compared. *)
Definition strict_eq (a b : JsVal) : bool :=
  match a, b with
  | JUndefined, JUndefined => true
  | JNull, JNull => true
  | JBool p, JBool q => Bool.eqb p q
  | JNum p, JNum q => PrimFloat.eqb p q
  | JStr p, JStr q => String.eqb p q
  | _, _ => false
  end.

(** [arr[i]] for an integer [i]; [None] is [undefined]. *)
Definition at_index {A} (arr : list A) (i : Z) : option A :=
  if i <? 0 then None else arr !! Z.to_nat i.

(** [arr.findIndex(p)] *)
Fixpoint findIndex_from {A} (p : A -> bool) (arr : list A) (i : Z) : Z :=
  match arr with
  | [] => -1
  | a :: rest => if p a then i else findIndex_from p rest (i + 1)
  end.

Definition findIndex {A} (p : A -> bool) (arr : list A) : Z :=
  findIndex_from p arr 0.

(** The React state and refs of the component that the modal uses.  A
    [null] or [undefined] image is [None]. *)
Record State : Type := {
  identifiedImages : list ImageInfo;
  selectedImage : option ImageInfo;
  currentImageIndex : Z;
  isModalOpen : bool;
  selectedImageRef : option ImageInfo;
  isModalOpenRef : bool;
}.

Definition initial : State :=
  {| identifiedImages := [];
     selectedImage := None;
     currentImageIndex := 0;
     isModalOpen := false;
     selectedImageRef := None;
     isModalOpenRef := false |}.

(** The [clickHandler] that [makeClickable] attaches for [imageInfo]. *)
Definition clickHandler (imageInfo : ImageInfo) (st : State) : State :=
  let imageIndex :=
    findIndex (fun img => strict_eq (fileId img) (fileId imageInfo))
              (identifiedImages st) in
  {| identifiedImages := identifiedImages st;
     selectedImage := Some imageInfo;
     currentImageIndex := if 0 <=? imageIndex then imageIndex else 0;
     isModalOpen := true;
     selectedImageRef := Some imageInfo;
     isModalOpenRef := true |}.

Definition navigateToNextImage (st : State) : State :=
  let len := Z.of_nat (length (identifiedImages st)) in
  if len =? 0 then st
  else
    let nextIndex := Z.rem (currentImageIndex st + 1) len in
    let nextImage := at_index (identifiedImages st) nextIndex in
    {| identifiedImages := identifiedImages st;
       selectedImage := nextImage;
       currentImageIndex := nextIndex;
       isModalOpen := isModalOpen st;
       selectedImageRef := nextImage;
       isModalOpenRef := isModalOpenRef st |}.

Definition navigateToPrevImage (st : State) : State :=
  let len := Z.of_nat (length (identifiedImages st)) in
  if len =? 0 then st
  else
    let prevIndex := Z.rem (currentImageIndex st - 1 + len) len in
    let prevImage := at_index (identifiedImages st) prevIndex in
    {| identifiedImages := identifiedImages st;
       selectedImage := prevImage;
       currentImageIndex := prevIndex;
       isModalOpen := isModalOpen st;
       selectedImageRef := prevImage;
       isModalOpenRef := isModalOpenRef st |}.

(** [handleKeyboard] on a [keydown] event with the given [key]. *)
Definition handleKeyboard (key : string) (st : State) : State :=
  if String.eqb key "Escape" then
    {| identifiedImages := identifiedImages st;
       selectedImage := None;
       currentImageIndex := currentImageIndex st;
       isModalOpen := false;
       selectedImageRef := None;
       isModalOpenRef := false |}
  else if String.eqb key "ArrowRight" then navigateToNextImage st
  else if String.eqb key "ArrowLeft" then navigateToPrevImage st
  else st.

(** A [keydown] event on the window: the effect registers
    [handleKeyboard] only while [isModalOpen] holds. *)
Definition keydown (key : string) (st : State) : State :=
  if isModalOpen st then handleKeyboard key st else st.

(** A click on the backdrop of the modal or on its close button. *)
Definition closeClick (st : State) : State :=
  {| identifiedImages := identifiedImages st;
     selectedImage := None;
     currentImageIndex := currentImageIndex st;
     isModalOpen := false;
     selectedImageRef := selectedImageRef st;
     isModalOpenRef := isModalOpenRef st |}.

(** The effect that copies the state into the refs after a render. *)
Definition syncRefs (st : State) : State :=
  {| identifiedImages := identifiedImages st;
     selectedImage := selectedImage st;
     currentImageIndex := currentImageIndex st;
     isModalOpen := isModalOpen st;
     selectedImageRef := selectedImage st;
     isModalOpenRef := isModalOpen st |}.

(** [isModalOpen && selectedImage]: the modal is rendered. *)
Definition modalShown (st : State) : bool :=
  isModalOpen st && bool_decide (is_Some (selectedImage st)).

(** The events of the modal: a key, the two arrow buttons, a click to
    close, a click on an image made clickable. *)
Inductive Event : Type :=
  | Key (key : string)
  | NextButton
  | PrevButton
  | Close
  | ImageClick (imageInfo : ImageInfo).

Definition step (st : State) (e : Event) : State :=
  match e with
  | Key key => keydown key st
  | NextButton => navigateToNextImage st
  | PrevButton => navigateToPrevImage st
  | Close => closeClick st
  | ImageClick imageInfo => clickHandler imageInfo st
  end.

Definition run (st : State) (events : list Event) : State :=
  fold_left step events st.

(** The selected image is the one at the current index. *)
Definition consistent (st : State) : Prop :=
  selectedImage st = at_index (identifiedImages st) (currentImageIndex st).

(** The events that move through the images. *)
Definition is_navigation (e : Event) : bool :=
  match e with
  | Key key => String.eqb key "ArrowRight" || String.eqb key "ArrowLeft"
  | NextButton | PrevButton => true
  | Close | ImageClick _ => false
  end.

End Modal.

(* ===================================================================== *)
(** * Export buttons ([ExportButtons.tsx]) *)
(* ===================================================================== *)

Module ExportButtons.

(** The functions that the viewer stores on the [data-excal] element: they
    close over the viewer's [loading] state and its render function. *)
Inductive Expando : Type :=
  | GenerateLightSVG
  | ForceLightRender
  | IsLoading (loading : bool).

(** An [svg] element, as far as the download path reads it. *)
Record Svg : Type := {
  bbox_width : float;
  bbox_height : float;
  attributes : gmap string string;
}.

(** The [data-excal] element: its expando properties and the [svg] below
    it, if any. *)
Record Container : Type := {
  expandos : gmap string Expando;
  rendered : option Svg;
}.

(** What the handlers do to the outside world. *)
Inductive Effect : Type :=
  | CallForceLightRender
  | DispatchBeforePrint
  | Wait (ms : Z)
  | Print
  | Alert (message : string)
  | Download (name type : string) (svg : Svg).

(** The page as the export buttons see and change it: the document, the
    component's state and ref, its two timers, and the effects so far. *)
Record Page : Type := {
  classList : gset string;
  localStorage : gmap string string;
  excalContainer : option Container;
  article : option (option Svg);
  exported : option Svg;
  isPrinting : bool;
  isExcalLoading : bool;
  previousThemeRef : option string;
  intervalActive : bool;
  timeoutPending : bool;
  effects : list Effect;
}.

(** The viewer's effect on [loading]: it stores its three functions on the
    [data-excal] element. *)
Definition expose (loading : bool) (c : Container) : Container :=
  {| expandos :=
       <["__isLoading" := IsLoading loading]>
         (<["__forceLightRender" := ForceLightRender]>
            (<["__generateLightSVG" := GenerateLightSVG]> (expandos c)));
     rendered := rendered c |}.

(** Whether the value a stored function returns is truthy: the loading
    flag itself, and a promise for the two asynchronous functions. *)
Definition call_truthy (f : Expando) : bool :=
  match f with
  | IsLoading loading => loading
  | GenerateLightSVG | ForceLightRender => true
  end.

Definition with_loading (p : Page) (loading interval timeout : bool) : Page :=
  {| classList := classList p;
     localStorage := localStorage p;
     excalContainer := excalContainer p;
     article := article p;
     exported := exported p;
     isPrinting := isPrinting p;
     isExcalLoading := loading;
     previousThemeRef := previousThemeRef p;
     intervalActive := interval;
     timeoutPending := timeout;
     effects := effects p |}.

(** [checkLoading]: the loading state it stores and returns. *)
Definition checkLoading (p : Page) : bool :=
  match excalContainer p with
  | Some c =>
      match expandos c !! "__isLoading" with
      | Some f => call_truthy f
      | None => true
      end
  | None => true
  end.

(** The effect on mount: one check, then an interval and a timeout. *)
Definition mount (p : Page) : Page :=
  with_loading p (checkLoading p) true true.

(** The interval fires (every 100 ms while it is active). *)
Definition intervalTick (p : Page) : Page :=
  if intervalActive p then
    let stillLoading := checkLoading p in
    with_loading p stillLoading stillLoading (timeoutPending p)
  else p.

(** The timeout fires (10 s after mount). *)
Definition timeoutFire (p : Page) : Page :=
  if timeoutPending p then with_loading p false false false else p.

(** The viewer renders with a new value of [loading]. *)
Definition viewerSetsLoading (loading : bool) (p : Page) : Page :=
  {| classList := classList p;
     localStorage := localStorage p;
     excalContainer := expose loading <$> excalContainer p;
     article := article p;
     exported := exported p;
     isPrinting := isPrinting p;
     isExcalLoading := isExcalLoading p;
     previousThemeRef := previousThemeRef p;
     intervalActive := intervalActive p;
     timeoutPending := timeoutPending p;
     effects := effects p |}.

(** [handlePrintPDF], from the click to the opening of the print dialog.
    The forced render catches its own errors, so nothing here throws. *)
Definition handlePrintPDF (p : Page) : Page :=
  if isExcalLoading p then p
  else
    let isDark := bool_decide ("dark" ∈ classList p) in
    let forced :=
      match excalContainer p with
      | Some c =>
          match expandos c !! "__forceLightRender" with
          | Some _ => [CallForceLightRender]
          | None => []
          end
      | None => []
      end in
    {| classList := classList p ∖ {["dark"]};
       localStorage := <["theme" := "light"]> (localStorage p);
       excalContainer := excalContainer p;
       article := article p;
       exported := exported p;
       isPrinting := true;
       isExcalLoading := isExcalLoading p;
       previousThemeRef := Some (if isDark then "dark" else "light");
       intervalActive := intervalActive p;
       timeoutPending := timeoutPending p;
       effects := effects p ++ forced ++ [DispatchBeforePrint; Wait 300; Print] |}.

(** [handleAfterPrint], the listener of the [afterprint] event. *)
Definition handleAfterPrint (p : Page) : Page :=
  let dark := bool_decide (previousThemeRef p = Some "dark") in
  {| classList := if dark then classList p ∪ {["dark"]}
                  else classList p ∖ {["dark"]};
     localStorage := <["theme" := if dark then "dark" else "light"]>
                       (localStorage p);
     excalContainer := excalContainer p;
     article := article p;
     exported := exported p;
     isPrinting := false;
     isExcalLoading := isExcalLoading p;
     previousThemeRef := previousThemeRef p;
     intervalActive := intervalActive p;
     timeoutPending := timeoutPending p;
     effects := effects p |}.

(** A click on the PDF button, which is disabled while printing or
    loading. *)
Definition clickPDF (p : Page) : Page :=
  if isPrinting p || isExcalLoading p then p else handlePrintPDF p.

(** The document theme. *)
Definition theme (p : Page) : string :=
  if bool_decide ("dark" ∈ classList p) then "dark" else "light".

(** ** The download path *)

(** The class [[a-z0-9]] under the [i] flag. *)
Definition is_alnum (c : ascii) : bool :=
  let n := Z.of_N (N_of_ascii c) in
  ((48 <=? n) && (n <=? 57)) || ((97 <=? n) && (n <=? 122))
  || ((65 <=? n) && (n <=? 90)).

(** [toLowerCase] on one code unit; the code units it meets here are
    letters, digits and [-]. *)
Definition lower (c : ascii) : ascii :=
  let n := N_of_ascii c in
  if ((65 <=? n) && (n <=? 90))%N then ascii_of_N (n + 32) else c.

(** [title.replace(/[^a-z0-9]/gi, '-').toLowerCase()] *)
Definition slug (title : string) : string :=
  string_of_list_ascii
    (map lower
       (map (fun c => if is_alnum c then c else "-"%char)
            (list_ascii_of_string title))).

(** A lower-case letter, a digit or [-]. *)
Definition is_slug_char (c : ascii) : bool :=
  let n := Z.of_N (N_of_ascii c) in
  ((48 <=? n) && (n <=? 57)) || ((97 <=? n) && (n <=? 122)) || (n =? 45).

(** [`${slug}.svg`] *)
Definition download_name (title : string) : string := slug title +:+ ".svg".

(** Where the downloaded [svg] comes from. *)
Inductive Source : Type :=
  | Regenerated
  | Rendered
  | ArticleFallback.

(** The value that awaiting a stored function gives, as the download path
    uses it: an [svg], a falsy value, or a truthy value that is no
    element. *)
Inductive Awaited : Type :=
  | AnSvg (svg : Svg)
  | Falsy
  | NoElement.

Definition await_call (p : Page) (f : Expando) : Awaited :=
  match f with
  | GenerateLightSVG =>
      match exported p with
      | Some svg => AnSvg svg
      | None => Falsy
      end
  | ForceLightRender => Falsy
  | IsLoading loading => if loading then NoElement else Falsy
  end.

(** What a download invocation comes to. *)
Inductive Outcome : Type :=
  | Blocked
  | Alerted (message : string)
  | Saved (source : Source) (name type : string) (svg : Svg).

Section Download.
Context {N : NumberToString}.

(** [getAttribute(name)]: the value or [null]. *)
Definition getAttribute (svg : Svg) (name : string) : JsVal :=
  match attributes svg !! name with
  | Some v => JStr v
  | None => JNull
  end.

(** The clone with explicit [width], [height] and [viewBox]. *)
Definition sized_clone (svg : Svg) : Svg :=
  let w := to_string (js_or (js_or (JNum (bbox_width svg))
                                   (getAttribute svg "width"))
                            (JStr "800")) in
  let h := to_string (js_or (js_or (JNum (bbox_height svg))
                                   (getAttribute svg "height"))
                            (JStr "600")) in
  let vb := to_string
              (js_or (getAttribute svg "viewBox")
                     (JStr ("0 0 " +:+ number_to_string (bbox_width svg)
                              +:+ " " +:+ number_to_string (bbox_height svg)))) in
  {| bbox_width := bbox_width svg;
     bbox_height := bbox_height svg;
     attributes :=
       <["viewBox" := vb]> (<["height" := h]> (<["width" := w]> (attributes svg))) |}.

Definition save (source : Source) (title : string) (svg : Svg) : Outcome :=
  Saved source (download_name title) "image/svg+xml;charset=utf-8"
        (sized_clone svg).

(** The fallbacks once [svgElement] is still unset: the [svg] below the
    container, then the first [svg] of the article. *)
Definition fallback (p : Page) (c : Container) (title : string) : Outcome :=
  match rendered c with
  | Some svg => save Rendered title svg
  | None =>
      match article p with
      | Some (Some svg) => save ArticleFallback title svg
      | _ => Alerted "No se encontró ningún SVG para descargar"
      end
  end.

(** [handleDownloadSVG] *)
Definition handleDownloadSVG (title : string) (p : Page) : Outcome :=
  if isExcalLoading p then Blocked
  else
    match excalContainer p with
    | None => Alerted "No se encontró ningún dibujo Excalidraw"
    | Some c =>
        match expandos c !! "__generateSVG" with
        | Some f =>
            match await_call p f with
            | AnSvg svg => save Regenerated title svg
            | Falsy => fallback p c title
            | NoElement => Alerted "Error al descargar el SVG"
            end
        | None => fallback p c title
        end
    end.

End Download.

(** ** Pages that the two components produce *)


(** The events of the print path. *)
Inductive PrintEvent : Type :=
  | ClickPDF
  | AfterPrint.

Definition print_step (p : Page) (e : PrintEvent) : Page :=
  match e with
  | ClickPDF => clickPDF p
  | AfterPrint => handleAfterPrint p
  end.

(** The events of the loading poll: the interval, the timeout, and the
    viewer rendering with a new loading state. *)
Inductive PollEvent : Type :=
  | Tick
  | Timeout
  | ViewerLoading (loading : bool).

Definition poll_step (p : Page) (e : PollEvent) : Page :=
  match e with
  | Tick => intervalTick p
  | Timeout => timeoutFire p
  | ViewerLoading loading => viewerSetsLoading loading p
  end.

End ExportButtons.

(* ===================================================================== *)
(** * Sample data for the examples *)
(* ===================================================================== *)

Module Samples.
Import Locator.

(** A number printer for the examples, none of which prints a number
    other than zero. *)
Definition print_zero : NumberToString := fun _ => "0".

Definition photo : JsVal :=
  JObj {[ "type" := JStr "image"; "id" := JStr "el-1";
          "fileId" := JStr "file-a"; "x" := JNum 10; "width" := JNum 64 ]}.

Definition scan : JsVal :=
  JObj {[ "type" := JStr "image"; "id" := JStr "el-2";
          "fileId" := JStr "file-b" ]}.

Definition orphan : JsVal :=
  JObj {[ "type" := JStr "image"; "id" := JStr "el-3";
          "fileId" := JStr "file-c" ]}.

Definition label : JsVal :=
  JObj {[ "type" := JStr "text"; "id" := JStr "el-4";
          "strokeColor" := JStr "#000000";
          "backgroundColor" := JStr "transparent" ]}.

Definition sample_elements : list JsVal :=
  [photo; label; JStr "stray"; scan; orphan].

Definition sample_files : gmap string JsVal :=
  {[ "file-a" := JObj {[ "dataURL" := JStr "data:image/png;base64,AAAA";
                         "mimeType" := JStr "image/png";
                         "id" := JStr "file-a" ]};
     "file-b" := JObj {[ "data" := JStr "BBBB";
                         "mimeType" := JStr "image/jpeg";
                         "name" := JStr "scan.jpg" ]} ]}.

Definition sample_images : list ImageInfo :=
  map (descriptor (N := print_zero) sample_files) [photo; scan; orphan].

(** The modal open on the sample image at index [i]. *)
Definition open_at (i : Z) : Modal.State :=
  {| Modal.identifiedImages := sample_images;
     Modal.selectedImage := Modal.at_index sample_images i;
     Modal.currentImageIndex := i;
     Modal.isModalOpen := true;
     Modal.selectedImageRef := Modal.at_index sample_images i;
     Modal.isModalOpenRef := true |}.

Definition sample_svg : ExportButtons.Svg :=
  {| ExportButtons.bbox_width := 0;
     ExportButtons.bbox_height := 0;
     ExportButtons.attributes := {[ "width" := "320" ]} |}.

(** The [data-excal] element once the viewer has rendered and stopped
    loading. *)
Definition sample_container : ExportButtons.Container :=
  ExportButtons.expose false
    {| ExportButtons.expandos := ∅;
       ExportButtons.rendered := Some sample_svg |}.

(** A page in the dark theme whose viewer has finished loading. *)
Definition dark_page : ExportButtons.Page :=
  {| ExportButtons.classList := {[ "dark"; "scroll-smooth" ]};
     ExportButtons.localStorage := {[ "theme" := "dark" ]};
     ExportButtons.excalContainer := Some sample_container;
     ExportButtons.article := Some None;
     ExportButtons.exported := Some sample_svg;
     ExportButtons.isPrinting := false;
     ExportButtons.isExcalLoading := false;
     ExportButtons.previousThemeRef := None;
     ExportButtons.intervalActive := false;
     ExportButtons.timeoutPending := true;
     ExportButtons.effects := [] |}.

End Samples.

(* ===================================================================== *)
(** * Facts about JavaScript values *)
(* ===================================================================== *)

Module JsFacts.

Lemma get_prop_prop v name :
  nullish v = false -> get_prop v name = Ok (prop v name).
Proof. by destruct v. Qed.

Lemma get_prop_nullish v name :
  nullish v = true -> get_prop v name = TypeError.
Proof. by destruct v. Qed.

Lemma truthy_not_nullish v : truthy v = true -> nullish v = false.
Proof. by destruct v. Qed.

Lemma truthy_str s : truthy (JStr s) = true <-> s <> "".
Proof.
  simpl. destruct (String.eqb_spec s ""); simpl; split; congruence.
Qed.

End JsFacts.

(* ===================================================================== *)
(** * The colour adapter *)
(* ===================================================================== *)

Module ColorFacts.
Import Color JsFacts.

Lemma hex_value_range c v : hex_value c = Some v -> 0 <= v < 16.
Proof.
  unfold hex_value. intros Hv.
  repeat case_match; simplify_eq; lia.
Qed.

Lemma to_int32_small z : -2 ^ 31 <= z < 2 ^ 31 -> to_int32 z = z.
Proof. intros Hz. unfold to_int32. rewrite Z.mod_small; lia. Qed.

(** The shifts and masks of [isDarkColor] on a 24-bit integer read its
    three bytes. *)
Lemma channel_bytes r g b :
  0 <= r < 256 -> 0 <= g < 256 -> 0 <= b < 256 ->
  let int := 65536 * r + 256 * g + b in
  band (sar int 16) 255 = r
  /\ band (sar int 8) 255 = g
  /\ band int 255 = b.
Proof.
  intros Hr Hg Hb int. unfold band, sar.
  assert (Hint : to_int32 int = int) by (apply to_int32_small; lia).
  assert (H255 : to_int32 255 = 255) by reflexivity.
  rewrite Hint, H255, !Z.shiftr_div_pow2 by lia.
  rewrite !to_int32_small by
    (change (2 ^ 16) with 65536; change (2 ^ 8) with 256;
     change (2 ^ 31) with 2147483648;
     split; [etrans; [|apply Z.div_pos]|
             apply Z.div_lt_upper_bound]; lia).
  change 255 with (Z.ones 8). rewrite !Z.land_ones by lia.
  change (2 ^ 16) with 65536; change (2 ^ 8) with 256.
  subst int. repeat split; Z.div_mod_to_equations; lia.
Qed.

Lemma parse_hex_six d1 d2 d3 d4 d5 d6 v1 v2 v3 v4 v5 v6 :
  hex_value d1 = Some v1 -> hex_value d2 = Some v2 ->
  hex_value d3 = Some v3 -> hex_value d4 = Some v4 ->
  hex_value d5 = Some v5 -> hex_value d6 = Some v6 ->
  parseInt16 (string_of_list_ascii [d1; d2; d3; d4; d5; d6])
  = 65536 * (16 * v1 + v2) + 256 * (16 * v3 + v4) + (16 * v5 + v6).
Proof.
  intros H1 H2 H3 H4 H5 H6. unfold parseInt16. simpl.
  rewrite H1, H2, H3, H4, H5, H6. lia.
Qed.

(** The regular expression matches exactly the strings that have
    channels, and the captured group denotes them. *)
Lemma hex6_exec_channels c :
  match hex6_exec c, channels c with
  | Some digits, Some (r, g, b) =>
      parseInt16 digits = 65536 * r + 256 * g + b
      /\ 0 <= r < 256 /\ 0 <= g < 256 /\ 0 <= b < 256
  | None, None => True
  | _, _ => False
  end.
Proof.
  unfold hex6_exec, channels.
  set (digits := match c with String "#" rest => rest | _ => c end).
  clearbody digits.
  destruct digits as [|d1 [|d2 [|d3 [|d4 [|d5 [|d6 [|d7 l]]]]]]];
    simpl; try done.
  unfold is_hex_digit.
  destruct (hex_value d1) as [v1|] eqn:H1; simpl; [|done].
  destruct (hex_value d2) as [v2|] eqn:H2; simpl; [|done].
  destruct (hex_value d3) as [v3|] eqn:H3; simpl; [|done].
  destruct (hex_value d4) as [v4|] eqn:H4; simpl; [|done].
  destruct (hex_value d5) as [v5|] eqn:H5; simpl; [|done].
  destruct (hex_value d6) as [v6|] eqn:H6; simpl; [|done].
  pose proof (hex_value_range _ _ H1). pose proof (hex_value_range _ _ H2).
  pose proof (hex_value_range _ _ H3). pose proof (hex_value_range _ _ H4).
  pose proof (hex_value_range _ _ H5). pose proof (hex_value_range _ _ H6).
  split; [|lia].
  by apply (parse_hex_six d1 d2 d3 d4 d5 d6).
Qed.

(** The dark test on a string is the luma test on its channels. *)
Lemma isDarkColor_channels c :
  isDarkColor c = match channels c with
                  | Some (r, g, b) => (luma r g b <? 90)%float
                  | None => false
                  end.
Proof.
  unfold isDarkColor. pose proof (hex6_exec_channels c) as Hc.
  destruct (hex6_exec c) as [digits|], (channels c) as [[[r g] b]|];
    try done.
  destruct Hc as (-> & Hr & Hg & Hb). cbv zeta.
  by destruct (channel_bytes r g b Hr Hg Hb) as (-> & -> & ->).
Qed.

Lemma channels_length c rgb :
  channels c = Some rgb -> String.length c = 6%nat \/ String.length c = 7%nat.
Proof.
  unfold channels. intros Hc.
  assert (Hlen : forall d, (match list_ascii_of_string d with
                            | [d1; d2; d3; d4; d5; d6] =>
                                v1 ← hex_value d1; v2 ← hex_value d2;
                                v3 ← hex_value d3; v4 ← hex_value d4;
                                v5 ← hex_value d5; v6 ← hex_value d6;
                                Some (16 * v1 + v2, 16 * v3 + v4, 16 * v5 + v6)
                            | _ => None
                            end = Some rgb) -> String.length d = 6%nat).
  { intros d. by destruct d as [|? [|? [|? [|? [|? [|? [|? ?]]]]]]]. }
  destruct c as [|a rest]; [done|].
  destruct (decide (a = "#"%char)) as [->|Hne].
  - right. simpl. f_equal. by apply Hlen.
  - left. apply Hlen. rewrite <- Hc.
    destruct a as [[] [] [] [] [] [] [] []]; try done.
Qed.

Lemma toLight_str c :
  toLight (JStr c)
  = JStr (if isDarkColor c then "#e5e7eb" else c).
Proof.
  unfold toLight. simpl.
  destruct (String.eqb_spec c "") as [->|Hc]; simpl; [done|].
  destruct (String.eqb_spec c "transparent") as [->|Ht]; [done|].
  by destruct (isDarkColor c).
Qed.

Lemma toLight_other v : is_string v = false -> toLight v = v.
Proof.
  unfold toLight. intros ->. by rewrite orb_true_r.
Qed.

(** C3 (as amended).  For every string [c]: when [c] is a six-hex-digit
    colour, optionally prefixed by [#], whose luma
    [0.2126 R + 0.7152 G + 0.0722 B], evaluated in binary64 arithmetic from
    left to right, is below 90, [toLight] returns ["#e5e7eb"]; otherwise it
    returns [c] unchanged.  In particular black is replaced, white is
    kept, and ["transparent"] and malformed strings pass through. *)
Theorem toLight_double_luma :
  (forall c : string,
     toLight (JStr c)
     = JStr (match channels c with
             | Some (r, g, b) =>
                 if (luma r g b <? 90)%float then "#e5e7eb" else c
             | None => c
             end))
  /\ toLight (JStr "#000000") = JStr "#e5e7eb"
  /\ toLight (JStr "#ffffff") = JStr "#ffffff"
  /\ toLight (JStr "transparent") = JStr "transparent"
  /\ toLight (JStr "#12345") = JStr "#12345"
  /\ toLight (JStr "#gggggg") = JStr "#gggggg".
Proof.
  split; [|by vm_compute].
  intros c. rewrite toLight_str, isDarkColor_channels.
  by destruct (channels c) as [[[r g] b]|].
Qed.

(** C3 (as stated) fails: the luma of [#2a61a2] is exactly 90, not below
    it, and the colour is replaced all the same, its luma in binary64
    arithmetic being 89.99999999999999. *)
Lemma toLight_exact_luma_fails :
  ~ (forall c : string,
       toLight (JStr c)
       = JStr (match channels c with
               | Some (r, g, b) =>
                   if exact_luma r g b <? 900000 then "#e5e7eb" else c
               | None => c
               end)).
Proof.
  intros Hall. specialize (Hall "#2a61a2"). vm_compute in Hall. discriminate.
Qed.

Lemma toLight_str_fixed (c : string) :
  toLight (toLight (JStr c)) = toLight (JStr c).
Proof.
  rewrite (toLight_str c). destruct (isDarkColor c) eqn:Hd.
  - by vm_compute.
  - by rewrite toLight_str, Hd.
Qed.

(** C4.  The colour adapter is idempotent, on six-hex-digit colours as on
    every other value. *)
Theorem toLight_idempotent (v : JsVal) :
  toLight (toLight v) = toLight v.
Proof.
  destruct (is_string v) eqn:Hs; [|by rewrite !(toLight_other v Hs)].
  destruct v as [| | | |c| |]; try done.
  apply toLight_str_fixed.
Qed.

(** ** The luma test in exact arithmetic *)

Lemma check_row_sound s zs k :
  check_row s zs k = true ->
  forall (i : nat) z,
    zs !! i = Some z -> (s + z <? 90)%float = bool_decide (i < k)%nat.
Proof.
  revert k. induction zs as [|z0 zs IH]; intros k Hrow i z Hz; [done|].
  simpl in Hrow. destruct k as [|k], (s + z0 <? 90)%float eqn:Hlt;
    try done; destruct i as [|i]; simpl in Hz; simplify_eq.
  - rewrite Hlt. symmetry. apply bool_decide_eq_false_2. lia.
  - rewrite (IH 0%nat Hrow i z Hz). apply bool_decide_ext. lia.
  - rewrite Hlt. symmetry. apply bool_decide_eq_true_2. lia.
  - rewrite (IH k Hrow i z Hz). apply bool_decide_ext. lia.
Qed.

Lemma blue_terms_lookup b :
  0 <= b < 256 ->
  blue_terms !! Z.to_nat b = Some (0.0722 * num_of_Z b)%float.
Proof.
  intros Hb.
  change blue_terms
    with ((fun b => (0.0722 * num_of_Z b)%float) <$> seqZ 0 256).
  rewrite list_lookup_fmap, (lookup_seqZ_lt 0 256 (Z.to_nat b)) by lia.
  simpl. do 3 f_equal. lia.
Qed.

Lemma check_table_ok :
  forallb (fun r => forallb (fun g => table_entry r g) (seqZ 0 256))
          (seqZ 0 256) = true.
Proof. vm_compute. reflexivity. Qed.

Ltac split_tests :=
  repeat match goal with
         | |- context [Z.eqb ?a ?b] =>
             destruct (Z.eqb_spec a b); try subst; cbn [andb orb]
         | |- context [Z.ltb ?a ?b] =>
             destruct (Z.ltb_spec a b); cbn [andb orb]
         end.

Lemma dark_count_exact r g b :
  0 <= r < 256 -> 0 <= g < 256 -> 0 <= b < 256 ->
  bool_decide (Z.to_nat b < dark_count r g)%nat
  = (exact_luma r g b <? 900000) || rounds_below r g b.
Proof.
  intros Hr Hg Hb. unfold dark_count, exact_luma, rounds_below.
  split_tests;
    first [apply bool_decide_eq_true_2 | apply bool_decide_eq_false_2];
    Z.div_mod_to_equations; lia.
Qed.

Lemma table_rows (f : Z -> Z -> bool) (l1 l2 : list Z) :
  forallb (fun r => forallb (fun g => f r g) l2) l1 = true ->
  forall r g, r ∈ l1 -> g ∈ l2 -> f r g = true.
Proof.
  intros Hall r g Hr Hg.
  rewrite forallb_forall in Hall.
  specialize (Hall r (proj1 (list_elem_of_In _ _) Hr)).
  rewrite forallb_forall in Hall.
  exact (Hall g (proj1 (list_elem_of_In _ _) Hg)).
Qed.

Lemma check_table_row r g :
  0 <= r < 256 -> 0 <= g < 256 -> table_entry r g = true.
Proof.
  intros Hr Hg.
  apply (table_rows table_entry (seqZ 0 256) (seqZ 0 256) check_table_ok);
    apply elem_of_seqZ; lia.
Qed.

Lemma table_entry_sound r g b :
  table_entry r g = true ->
  0 <= b < 256 ->
  (luma r g b <? 90)%float = bool_decide (Z.to_nat b < dark_count r g)%nat.
Proof.
  unfold table_entry, luma. intros Hrow Hb.
  apply (check_row_sound _ blue_terms (dark_count r g) Hrow).
  by apply blue_terms_lookup.
Qed.

(** On the channels of a colour the floating-point test is the exact
    one, but for the two colours whose luma is exactly 90. *)
Lemma luma_exact r g b :
  0 <= r < 256 -> 0 <= g < 256 -> 0 <= b < 256 ->
  (luma r g b <? 90)%float
  = (exact_luma r g b <? 900000) || rounds_below r g b.
Proof.
  intros Hr Hg Hb. rewrite <- dark_count_exact by done.
  apply table_entry_sound; [by apply check_table_row|done].
Qed.

Lemma channels_range c r g b :
  channels c = Some (r, g, b) ->
  0 <= r < 256 /\ 0 <= g < 256 /\ 0 <= b < 256.
Proof.
  intros Hc. pose proof (hex6_exec_channels c) as Hm. rewrite Hc in Hm.
  destruct (hex6_exec c); [|done]. tauto.
Qed.

(** The colour adapter replaces exactly the six-hex-digit colours whose
    luma is below 90 in exact arithmetic, and the two colours [#2a61a2]
    and [#6b508b], whose luma is 90. *)
Theorem toLight_exact_luma (c : string) :
  toLight (JStr c)
  = JStr (match channels c with
          | Some (r, g, b) =>
              if (exact_luma r g b <? 900000) || rounds_below r g b
              then "#e5e7eb" else c
          | None => c
          end).
Proof.
  rewrite toLight_str, isDarkColor_channels.
  destruct (channels c) as [[[r g] b]|] eqn:Hc; [|done].
  destruct (channels_range c r g b Hc) as (Hr & Hg & Hb).
  by rewrite luma_exact.
Qed.

Lemma toLight_str_light (c s : string) :
  toLight (JStr c) = JStr s -> isDarkColor s = false.
Proof.
  rewrite toLight_str. destruct (isDarkColor c) eqn:Hd.
  - intros [= <-]. by vm_compute.
  - by intros [= <-].
Qed.

(** What the colour adapter returns is never a dark colour. *)
Theorem toLight_never_dark (v : JsVal) (s : string) :
  toLight v = JStr s -> isDarkColor s = false.
Proof.
  destruct (is_string v) eqn:Hs.
  - destruct v as [| | | |c| |]; try done. apply toLight_str_light.
  - rewrite (toLight_other v Hs). by intros ->.
Qed.

Lemma toLight_never_dark_witness :
  toLight (JStr "#101010") = JStr "#e5e7eb"
  /\ isDarkColor "#e5e7eb" = false.
Proof.
  split; [by vm_compute|].
  apply (toLight_never_dark (JStr "#101010")). by vm_compute.
Defined.

(** A string that is neither six nor seven characters long is returned
    unchanged: the short form [#000] and colours with an alpha channel are
    never lightened. *)
Theorem toLight_other_lengths (c : string) :
  String.length c <> 6%nat -> String.length c <> 7%nat ->
  toLight (JStr c) = JStr c.
Proof.
  intros H6 H7. rewrite toLight_str, isDarkColor_channels.
  destruct (channels c) as [rgb|] eqn:Hc; [|done].
  destruct (channels_length c rgb Hc); congruence.
Qed.

Lemma toLight_other_lengths_witness :
  toLight (JStr "#000") = JStr "#000"
  /\ toLight (JStr "#000000ff") = JStr "#000000ff".
Proof.
  split; apply toLight_other_lengths; by vm_compute.
Defined.

End ColorFacts.

(* ===================================================================== *)
(** * The image locator *)
(* ===================================================================== *)

Module LocatorFacts.
Import Locator JsFacts.

Section WithNumbers.
Context {N : NumberToString}.

(** One iteration on an element that is neither [null] nor [undefined]:
    a qualifying element pushes its descriptor, any other is skipped. *)
Lemma identifyImages_body_ok files images element :
  nullish element = false ->
  identifyImages_body files images element
  = Ok (if qualifies element then images ++ [descriptor files element]
        else images).
Proof.
  intros Hn. unfold identifyImages_body, qualifies, descriptor.
  rewrite !(get_prop_prop element) by done. simpl.
  destruct (strict_eq_str (prop element "type") "image"); simpl; [|done].
  destruct (truthy (prop element "fileId")); simpl; [|done].
  by destruct (resolve _ _) as [[dataUrl fileName] mimeType].
Qed.

Lemma identifyImages_body_nullish files images element :
  nullish element = true ->
  identifyImages_body files images element = TypeError.
Proof.
  intros Hn. unfold identifyImages_body.
  rewrite (get_prop_nullish element "type") by done. reflexivity.
Qed.

Lemma identifyImages_loop_ok files elements images :
  Forall (fun e => nullish e = false) elements ->
  identifyImages_loop files elements images
  = Ok (images ++ map (descriptor files) (List.filter qualifies elements)).
Proof.
  intros Hall. revert images.
  induction Hall as [|e l He _ IH]; intros images; simpl.
  - by rewrite app_nil_r.
  - rewrite identifyImages_body_ok by done. simpl.
    rewrite IH. destruct (qualifies e); simpl; [|done].
    by rewrite <- app_assoc.
Qed.

Lemma identifyImages_loop_error files elements images :
  Exists (fun e => nullish e = true) elements ->
  identifyImages_loop files elements images = TypeError.
Proof.
  intros Hex. revert images.
  induction Hex as [e l He|e l _ IH]; intros images; simpl.
  - by rewrite identifyImages_body_nullish.
  - destruct (identifyImages_body files images e); simpl; [apply IH|done].
Qed.

Lemma identifyImages_ok elements files :
  Forall (fun e => nullish e = false) elements ->
  identifyImages elements files
  = Ok (map (descriptor (default ∅ files)) (List.filter qualifies elements)).
Proof.
  intros Hall. unfold identifyImages.
  by rewrite identifyImages_loop_ok.
Qed.












End WithNumbers.







(** ** Further properties of the locator *)

Section More.
Context {N : NumberToString}.

Lemma identifyImages_loop_error_iff files elements images :
  identifyImages_loop files elements images = TypeError
  <-> Exists (fun e => nullish e = true) elements.
Proof.
  revert images. induction elements as [|e l IH]; intros images; simpl.
  - split; [done|by intros ?%Exists_nil].
  - rewrite Exists_cons. destruct (nullish e) eqn:Hn.
    + rewrite identifyImages_body_nullish by done. simpl. tauto.
    + rewrite identifyImages_body_ok by done. simpl. rewrite IH.
      split; [tauto|]. by intros [?|?].
Qed.


Lemma identifyImages_Ok_inv elements files imgs :
  identifyImages elements files = Ok imgs ->
  Forall (fun e => nullish e = false) elements
  /\ imgs = map (descriptor (default ∅ files))
              (List.filter qualifies elements).
Proof.
  intros Hok.
  assert (Hall : Forall (fun e => nullish e = false) elements).
  { apply Forall_forall. intros e He.
    destruct (nullish e) eqn:Hn; [|done].
    assert (Hex : Exists (fun e => nullish e = true) elements)
      by (apply Exists_exists; eauto).
    apply (identifyImages_loop_error_iff (default ∅ files) elements [])
      in Hex.
    unfold identifyImages in Hok. congruence. }
  split; [done|]. rewrite identifyImages_ok in Hok by done. congruence.
Qed.

Lemma identifyImages_loop_acc files elements images :
  identifyImages_loop files elements images
  = imgs ← identifyImages_loop files elements []; mret (images ++ imgs).
Proof.
  destruct (decide (Exists (fun e => nullish e = true) elements)) as [Hex|Hex].
  - by rewrite !identifyImages_loop_error.
  - apply not_Exists_Forall in Hex; [|intros e; apply _].
    assert (Hall : Forall (fun e => nullish e = false) elements).
    { eapply Forall_impl; [exact Hex|]. simpl. intros e He.
      by destruct (nullish e). }
    by rewrite !identifyImages_loop_ok.
Qed.

Lemma identifyImages_loop_app files l1 l2 images :
  identifyImages_loop files (l1 ++ l2) images
  = images' ← identifyImages_loop files l1 images;
    identifyImages_loop files l2 images'.
Proof.
  revert images. induction l1 as [|e l1 IH]; intros images; simpl; [done|].
  destruct (identifyImages_body files images e); simpl; [apply IH|done].
Qed.


(** The locator works through a list piece by piece: the images of
    [l1 ++ l2] are those of [l1] followed by those of [l2], and the whole
    raises when either piece does. *)
Theorem identifyImages_app l1 l2 files :
  identifyImages (l1 ++ l2) files
  = imgs1 ← identifyImages l1 files;
    imgs2 ← identifyImages l2 files;
    mret (imgs1 ++ imgs2).
Proof.
  unfold identifyImages. rewrite identifyImages_loop_app.
  destruct (identifyImages_loop (default ∅ files) l1 []) as [imgs1|]; simpl;
    [|done].
  apply identifyImages_loop_acc.
Qed.

(** An element that does not qualify (no "image" tag, or an empty asset
    reference) has no influence on the result. *)
Theorem identifyImages_skips l1 element l2 files :
  nullish element = false ->
  qualifies element = false ->
  identifyImages (l1 ++ element :: l2) files
  = identifyImages (l1 ++ l2) files.
Proof.
  intros Hn Hq. unfold identifyImages.
  rewrite !identifyImages_loop_app.
  destruct (identifyImages_loop (default ∅ files) l1 []) as [imgs1|]; simpl;
    [|done].
  rewrite identifyImages_body_ok by done. by rewrite Hq.
Qed.

Lemma resolve_optional record fileId :
  truthy fileId = true ->
  let '(dataUrl, fileName, mimeType) := resolve record fileId in
  (dataUrl = JUndefined \/ truthy dataUrl = true)
  /\ (fileName = JUndefined \/ truthy fileName = true)
  /\ (mimeType = JUndefined \/ truthy mimeType = true).
Proof.
  intros Hf. unfold resolve, js_or.
  destruct (truthy record); [|by repeat split; left].
  repeat split.
  - destruct (truthy (prop record "dataURL")) eqn:H1; [by right|].
    destruct (truthy (prop record "data")); [by right|by left].
  - right. destruct (truthy (prop record "name")) eqn:H1; simpl;
      [by rewrite H1|].
    by destruct (truthy (prop record "id")) eqn:H2.
  - right. by destruct (truthy (prop record "mimeType")) eqn:H1.
Qed.

(** Every descriptor returned has a non-empty asset reference and a
    geometry without [null] or [undefined], and each of its optional
    fields is either [undefined] or truthy. *)
Theorem identifyImages_descriptors elements files imgs :
  identifyImages elements files = Ok imgs ->
  Forall (fun d =>
            truthy (fileId d) = true
            /\ nullish (x d) = false /\ nullish (y d) = false
            /\ nullish (width d) = false /\ nullish (height d) = false
            /\ (dataUrl d = JUndefined \/ truthy (dataUrl d) = true)
            /\ (fileName d = JUndefined \/ truthy (fileName d) = true)
            /\ (mimeType d = JUndefined \/ truthy (mimeType d) = true))
         imgs.
Proof.
  intros [_ ->]%identifyImages_Ok_inv.
  apply Forall_forall. intros d Hd.
  apply list_elem_of_In, in_map_iff in Hd as (e & <- & He).
  apply filter_In in He as [_ Hq].
  unfold qualifies in Hq. apply andb_true_iff in Hq as [_ Hf].
  pose proof (resolve_optional
                (lookup_file (default ∅ files) (prop e "fileId"))
                (prop e "fileId") Hf) as Hopt.
  unfold descriptor. destruct (resolve _ _) as [[? ?] ?]. simpl.
  assert (Hgeo : forall v, nullish (js_coalesce v (JNum 0)) = false).
  { intros v. unfold js_coalesce. by destruct (nullish v) eqn:Hv. }
  by rewrite !Hgeo.
Qed.



End More.

Lemma identifyImages_skips_witness :
  identifyImages (N := Samples.print_zero)
    ([Samples.photo] ++ Samples.label :: [Samples.scan])
    (Some Samples.sample_files)
  = identifyImages (N := Samples.print_zero)
      ([Samples.photo] ++ [Samples.scan]) (Some Samples.sample_files).
Proof.
  apply (identifyImages_skips (N := Samples.print_zero)); reflexivity.
Defined.

Lemma identifyImages_descriptors_witness :
  exists imgs,
    identifyImages (N := Samples.print_zero) Samples.sample_elements
                   (Some Samples.sample_files) = Ok imgs
    /\ Forall (fun d => truthy (fileId d) = true) imgs.
Proof.
  eexists. split; [by vm_compute|].
  eapply Forall_impl.
  - apply (identifyImages_descriptors (N := Samples.print_zero)
             Samples.sample_elements (Some Samples.sample_files)).
    by vm_compute.
  - simpl. tauto.
Defined.


End LocatorFacts.

(* ===================================================================== *)
(** * The render data of the viewer *)
(* ===================================================================== *)

Module RenderDataFacts.
Import Locator JsFacts ColorFacts.

Lemma lookup_lighten name (next : gmap string JsVal) k :
  lighten name next !! k
  = if decide (k = name) then Color.toLight <$> next !! name else next !! k.
Proof.
  unfold lighten. destruct (next !! name) as [c|] eqn:Hc.
  - destruct (is_string c) eqn:Hs.
    + destruct (decide (k = name)) as [->|Hk].
      * by rewrite lookup_insert_eq.
      * by rewrite lookup_insert_ne.
    + destruct (decide (k = name)) as [->|Hk]; [|done].
      rewrite Hc. simpl. by rewrite toLight_other.
  - destruct (decide (k = name)) as [->|Hk]; [|done]. by rewrite Hc.
Qed.

Lemma lightened_prop (el : JsVal) (name : string) :
  name = "strokeColor" \/ name = "backgroundColor" ->
  prop (transformElement true el) name
  = Color.toLight (default JUndefined (spread_props el !! name)).
Proof.
  unfold transformElement. simpl. rewrite !lookup_lighten.
  intros [-> | ->]; simpl; by destruct (spread_props el !! _).
Qed.

(** In the dark theme the two colours of an element go through the
    colour adapter; in the light theme the element is passed on as it
    is. *)
Theorem transformElement_colors (el : JsVal) :
  transformElement false el = el
  /\ prop (transformElement true el) "strokeColor"
     = Color.toLight (default JUndefined (spread_props el !! "strokeColor"))
  /\ prop (transformElement true el) "backgroundColor"
     = Color.toLight
         (default JUndefined (spread_props el !! "backgroundColor")).
Proof.
  split; [done|]. split; apply lightened_prop; [by left|by right].
Qed.

(** The dark-theme copy of an element keeps every other property of the
    element. *)
Theorem transformElement_frame (el : JsVal) (name : string) :
  name <> "strokeColor" -> name <> "backgroundColor" ->
  prop (transformElement true el) name
  = default JUndefined (spread_props el !! name).
Proof.
  intros Hs Hb. unfold transformElement. simpl.
  rewrite !lookup_lighten.
  by rewrite !decide_False by done.
Qed.

Lemma transformElement_frame_witness :
  prop (transformElement true Samples.label) "id" = JStr "el-4".
Proof.
  by rewrite (transformElement_frame Samples.label "id").
Defined.

(** After the dark-theme transformation no colour of an element is a dark
    six-hex-digit colour. *)
Theorem transformElement_never_dark (el : JsVal) (name s : string) :
  name = "strokeColor" \/ name = "backgroundColor" ->
  prop (transformElement true el) name = JStr s ->
  Color.isDarkColor s = false.
Proof.
  intros Hname. rewrite (lightened_prop el name Hname).
  generalize (default JUndefined (spread_props el !! name)). intros v.
  destruct (is_string v) eqn:Hs.
  - destruct v as [| | | |c| |]; try done. apply toLight_str_light.
  - rewrite (toLight_other v Hs). intros Hv. by rewrite Hv in Hs.
Qed.

Lemma transformElement_never_dark_witness :
  prop (transformElement true Samples.label) "strokeColor" = JStr "#e5e7eb"
  /\ Color.isDarkColor "#e5e7eb" = false.
Proof.
  split; [by vm_compute|].
  apply (transformElement_never_dark Samples.label "strokeColor");
    [by left|by vm_compute].
Defined.

(** Transforming twice is transforming once. *)
Theorem transformElement_idempotent (isDark : bool) (el : JsVal) :
  transformElement isDark (transformElement isDark el)
  = transformElement isDark el.
Proof.
  destruct isDark; [|done]. unfold transformElement. simpl. f_equal.
  assert (Htwice : forall v, Color.toLight (Color.toLight v) = Color.toLight v).
  { intros v. destruct (is_string v) eqn:Hs; [|by rewrite !(toLight_other v Hs)].
    destruct v as [| | | |c| |]; try done. apply toLight_str_fixed. }
  apply map_eq. intros k. rewrite !lookup_lighten.
  repeat case_decide; simplify_eq; try done.
  - destruct (spread_props el !! "backgroundColor") as [c|]; simpl; [|done].
    by rewrite Htwice.
  - destruct (spread_props el !! "strokeColor") as [c|]; simpl; [|done].
    by rewrite Htwice.
Qed.


(** The renderer always gets the theme, view mode, scale and background
    that the viewer sets, and every other member of the drawing's own
    application state. *)
Theorem renderAppState_lookup (appState : JsVal) (theme k : string) :
  renderAppState appState theme !! k
  = if decide (k = "theme") then Some (JStr theme)
    else if decide (k = "exportScale") then Some (JNum 1)
    else if decide (k = "viewModeEnabled") then Some (JBool true)
    else if decide (k = "viewBackgroundColor") then Some JNull
    else spread_props (js_or appState (JObj ∅)) !! k.
Proof.
  unfold renderAppState.
  repeat (case_decide; [subst; by rewrite lookup_insert_eq|
                        rewrite lookup_insert_ne by done]).
  done.
Qed.

Section Memo.
Context {N : NumberToString}.


End Memo.

End RenderDataFacts.

(* ===================================================================== *)
(** * The modal *)
(* ===================================================================== *)

Module ModalFacts.
Import Locator Modal.

Lemma at_index_nonneg {A} (arr : list A) i :
  0 <= i -> at_index arr i = arr !! Z.to_nat i.
Proof.
  intros Hi. unfold at_index. destruct (Z.ltb_spec i 0); [lia|done].
Qed.

Lemma images_nonempty (st : State) :
  0 <= currentImageIndex st < Z.of_nat (length (identifiedImages st)) ->
  (Z.of_nat (length (identifiedImages st)) =? 0) = false.
Proof. intros Hi. apply Z.eqb_neq. lia. Qed.

(** C7.  On a list of [n > 0] images with the index [i] in [[0, n)],
    "next" moves the index to [(i + 1) mod n] and "previous" to
    [(i - 1 + n) mod n], each selecting the image at the new index: from
    [n - 1] "next" goes to 0, and from 0 "previous" goes to [n - 1]. *)
Theorem navigation_wraps (st : State) :
  let n := Z.of_nat (length (identifiedImages st)) in
  let i := currentImageIndex st in
  0 <= i < n ->
  currentImageIndex (navigateToNextImage st) = (i + 1) mod n
  /\ selectedImage (navigateToNextImage st)
     = identifiedImages st !! Z.to_nat ((i + 1) mod n)
  /\ currentImageIndex (navigateToPrevImage st) = (i - 1 + n) mod n
  /\ selectedImage (navigateToPrevImage st)
     = identifiedImages st !! Z.to_nat ((i - 1 + n) mod n)
  /\ (i = n - 1 -> currentImageIndex (navigateToNextImage st) = 0)
  /\ (i = 0 -> currentImageIndex (navigateToPrevImage st) = n - 1).
Proof.
  intros n i Hi.
  pose proof (images_nonempty st Hi) as Hn.
  unfold navigateToNextImage, navigateToPrevImage. rewrite Hn. simpl.
  fold n i. rewrite !Z.rem_mod_nonneg by lia.
  assert (0 <= (i + 1) mod n < n) by (apply Z.mod_pos_bound; lia).
  assert (0 <= (i - 1 + n) mod n < n) by (apply Z.mod_pos_bound; lia).
  rewrite !at_index_nonneg by lia.
  repeat split.
  - intros Hlast. rewrite Hlast. replace (n - 1 + 1) with (1 * n) by lia.
    apply Z.mod_mul. lia.
  - intros Hfirst. rewrite Hfirst. replace (0 - 1 + n) with (n - 1) by lia.
    apply Z.mod_small. lia.
Qed.

Lemma navigation_wraps_witness :
  let st := Samples.open_at 2 in
  0 <= currentImageIndex st < Z.of_nat (length (identifiedImages st))
  /\ currentImageIndex (navigateToNextImage st) = 0
  /\ currentImageIndex (navigateToPrevImage (Samples.open_at 0)) = 2.
Proof.
  split; [by vm_compute|].
  split.
  - apply (navigation_wraps (Samples.open_at 2)); by vm_compute.
  - apply (navigation_wraps (Samples.open_at 0)); by vm_compute.
Defined.

(** C8.  From every open state, whatever the index, the Escape key closes
    the modal: the selected image is cleared and the open flag is false,
    in the state as in the refs.  The closed state is final for the
    keyboard: no further key changes it. *)
Theorem escape_closes (st : State) :
  isModalOpen st = true ->
  let st' := keydown "Escape" st in
  isModalOpen st' = false
  /\ selectedImage st' = None
  /\ isModalOpenRef st' = false
  /\ selectedImageRef st' = None
  /\ modalShown st' = false
  /\ forall key, keydown key st' = st'.
Proof.
  intros Hopen st'. subst st'. unfold keydown. rewrite Hopen.
  by repeat split.
Qed.

Lemma escape_closes_witness :
  isModalOpen (Samples.open_at 1) = true
  /\ isModalOpen (keydown "Escape" (Samples.open_at 1)) = false
  /\ selectedImage (keydown "Escape" (Samples.open_at 1)) = None.
Proof.
  split; [reflexivity|].
  pose proof (escape_closes (Samples.open_at 1) eq_refl) as Hclosed.
  split; apply Hclosed.
Defined.

(** ** Further properties of the modal *)

Lemma navigateToNextImage_spec (st : State) :
  identifiedImages st <> [] -> 0 <= currentImageIndex st ->
  let st' := navigateToNextImage st in
  identifiedImages st' = identifiedImages st
  /\ isModalOpen st' = isModalOpen st
  /\ 0 <= currentImageIndex st' < Z.of_nat (length (identifiedImages st))
  /\ consistent st'
  /\ is_Some (selectedImage st').
Proof.
  intros Hne Hi. unfold navigateToNextImage, consistent.
  set (n := Z.of_nat (length (identifiedImages st))).
  assert (Hn : 0 < n) by (subst n; destruct (identifiedImages st); simpl; [done|lia]).
  destruct (Z.eqb_spec n 0); [lia|]. simpl.
  rewrite Z.rem_mod_nonneg by lia.
  assert (Hm : 0 <= (currentImageIndex st + 1) mod n < n)
    by (apply Z.mod_pos_bound; lia).
  repeat split; try lia.
  rewrite at_index_nonneg by lia. apply lookup_lt_is_Some. lia.
Qed.

Lemma navigateToPrevImage_spec (st : State) :
  identifiedImages st <> [] -> 0 <= currentImageIndex st ->
  let st' := navigateToPrevImage st in
  identifiedImages st' = identifiedImages st
  /\ isModalOpen st' = isModalOpen st
  /\ 0 <= currentImageIndex st' < Z.of_nat (length (identifiedImages st))
  /\ consistent st'
  /\ is_Some (selectedImage st').
Proof.
  intros Hne Hi. unfold navigateToPrevImage, consistent.
  set (n := Z.of_nat (length (identifiedImages st))).
  assert (Hn : 0 < n) by (subst n; destruct (identifiedImages st); simpl; [done|lia]).
  destruct (Z.eqb_spec n 0); [lia|]. simpl.
  rewrite Z.rem_mod_nonneg by lia.
  assert (Hm : 0 <= (currentImageIndex st - 1 + n) mod n < n)
    by (apply Z.mod_pos_bound; lia).
  repeat split; try lia.
  rewrite at_index_nonneg by lia. apply lookup_lt_is_Some. lia.
Qed.

Lemma navigation_step (st : State) (e : Event) :
  is_navigation e = true ->
  isModalOpen st = true ->
  identifiedImages st <> [] -> 0 <= currentImageIndex st ->
  let st' := step st e in
  identifiedImages st' = identifiedImages st
  /\ isModalOpen st' = true
  /\ 0 <= currentImageIndex st' < Z.of_nat (length (identifiedImages st))
  /\ consistent st'
  /\ is_Some (selectedImage st').
Proof.
  intros He Hopen Hne Hi.
  pose proof (navigateToNextImage_spec st Hne Hi) as Hnext.
  pose proof (navigateToPrevImage_spec st Hne Hi) as Hprev.
  rewrite Hopen in Hnext, Hprev.
  destruct e as [key| | | |img]; simpl in *; try done.
  unfold keydown, handleKeyboard. rewrite Hopen.
  destruct (String.eqb_spec key "ArrowRight") as [Hr|Hr];
    [subst key; exact Hnext|].
  destruct (String.eqb_spec key "ArrowLeft") as [Hl|Hl];
    [subst key; exact Hprev|].
  done.
Qed.

(** However long the viewer is navigated with the arrow keys and the arrow
    buttons, the modal stays open and shown, the index stays within the
    list, and the image shown is the one at the index. *)
Theorem navigation_keeps_selection (st : State) (e : Event)
    (events : list Event) :
  Forall (fun e => is_navigation e = true) (e :: events) ->
  isModalOpen st = true ->
  identifiedImages st <> [] -> 0 <= currentImageIndex st ->
  let st' := run st (e :: events) in
  identifiedImages st' = identifiedImages st
  /\ modalShown st' = true
  /\ 0 <= currentImageIndex st' < Z.of_nat (length (identifiedImages st))
  /\ consistent st'.
Proof.
  intros Hall. revert st e Hall.
  induction events as [|e' events IH]; intros st e Hall Hopen Hne Hi.
  - apply Forall_cons_1 in Hall as [He _].
    destruct (navigation_step st e He Hopen Hne Hi)
      as (Himgs & Ho & Hr & Hc & Hs).
    simpl. unfold modalShown. rewrite Ho.
    by rewrite bool_decide_eq_true_2.
  - apply Forall_cons_1 in Hall as [He Hall].
    destruct (navigation_step st e He Hopen Hne Hi)
      as (Himgs & Ho & Hr & Hc & Hs).
    change (run st (e :: e' :: events)) with (run (step st e) (e' :: events)).
    destruct (IH (step st e) e' Hall Ho) as (Himgs' & Hshown & Hr' & Hc').
    + by rewrite Himgs.
    + lia.
    + rewrite Himgs in Himgs', Hr'. done.
Qed.

Lemma navigation_keeps_selection_witness :
  modalShown (run (Samples.open_at 1)
                  [Key "ArrowRight"; NextButton; Key "ArrowLeft"; PrevButton])
  = true.
Proof.
  apply (navigation_keeps_selection (Samples.open_at 1) (Key "ArrowRight")
           [NextButton; Key "ArrowLeft"; PrevButton]);
    [by repeat constructor|reflexivity|discriminate|by vm_compute].
Defined.

(** "Previous" undoes "next" and "next" undoes "previous", for an index
    within the list. *)
Theorem next_prev_inverse (st : State) :
  0 <= currentImageIndex st < Z.of_nat (length (identifiedImages st)) ->
  currentImageIndex (navigateToPrevImage (navigateToNextImage st))
  = currentImageIndex st
  /\ currentImageIndex (navigateToNextImage (navigateToPrevImage st))
     = currentImageIndex st.
Proof.
  intros Hi. pose proof (images_nonempty st Hi) as Hn.
  unfold navigateToNextImage, navigateToPrevImage. rewrite Hn. simpl.
  rewrite Hn. simpl.
  set (n := Z.of_nat (length (identifiedImages st))) in *.
  set (i := currentImageIndex st) in *.
  assert (0 <= (i + 1) mod n < n) by (apply Z.mod_pos_bound; lia).
  assert (0 <= (i - 1 + n) mod n < n) by (apply Z.mod_pos_bound; lia).
  rewrite (Z.rem_mod_nonneg (i + 1)), (Z.rem_mod_nonneg (i - 1 + n)) by lia.
  rewrite !Z.rem_mod_nonneg by lia.
  split.
  - destruct (decide (i = n - 1)) as [Hlast|Hlast].
    + replace ((i + 1) mod n) with 0
        by (rewrite Hlast; replace (n - 1 + 1) with (1 * n) by lia;
            by rewrite Z.mod_mul by lia).
      replace (0 - 1 + n) with (n - 1) by lia. rewrite Z.mod_small; lia.
    + rewrite (Z.mod_small (i + 1)) by lia.
      replace (i + 1 - 1 + n) with (i + 1 * n) by lia.
      rewrite Z.mod_add by lia. apply Z.mod_small. lia.
  - destruct (decide (i = 0)) as [Hfirst|Hfirst].
    + rewrite Hfirst. replace (0 - 1 + n) with (n - 1) by lia.
      rewrite (Z.mod_small (n - 1)) by lia.
      replace (n - 1 + 1) with (1 * n) by lia. apply Z.mod_mul. lia.
    + replace (i - 1 + n) with (i - 1 + 1 * n) by lia.
      rewrite Z.mod_add by lia. rewrite (Z.mod_small (i - 1)) by lia.
      replace (i - 1 + 1) with i by lia. apply Z.mod_small. lia.
Qed.

Lemma next_prev_inverse_witness :
  currentImageIndex
    (navigateToPrevImage (navigateToNextImage (Samples.open_at 2))) = 2.
Proof.
  apply (next_prev_inverse (Samples.open_at 2)). by vm_compute.
Defined.





(** The two ways of closing agree: a click on the backdrop or on the close
    button, once the effect has copied the state into the refs, leaves the
    state that the Escape key leaves, and there the refs are in step
    already. *)
Theorem close_paths_agree (st : State) :
  isModalOpen st = true ->
  syncRefs (closeClick st) = keydown "Escape" st
  /\ syncRefs (keydown "Escape" st) = keydown "Escape" st.
Proof.
  intros Hopen. unfold keydown. rewrite Hopen. by split.
Qed.

Lemma close_paths_agree_witness :
  syncRefs (closeClick (Samples.open_at 1))
  = keydown "Escape" (Samples.open_at 1).
Proof.
  apply (close_paths_agree (Samples.open_at 1)). reflexivity.
Defined.

(** The keyboard never opens the modal: while it is closed no sequence of
    keys changes the state, so only a click on an image opens it. *)
Theorem keyboard_never_opens (st : State) (keys : list string) :
  isModalOpen st = false ->
  run st (Key <$> keys) = st.
Proof.
  intros Hclosed. induction keys as [|key keys IH]; [done|].
  simpl. unfold keydown at 1. by rewrite Hclosed.
Qed.

Lemma keyboard_never_opens_witness :
  run initial (Key <$> ["ArrowRight"; "Enter"; "Escape"]) = initial.
Proof.
  apply (keyboard_never_opens initial). reflexivity.
Defined.

End ModalFacts.

(* ===================================================================== *)
(** * The export buttons *)
(* ===================================================================== *)

Module ExportFacts.
Import ExportButtons.

Lemma theme_light (p : Page) :
  "dark" ∉ classList p -> theme p = "light".
Proof. intros Hd. unfold theme. by rewrite bool_decide_eq_false_2. Qed.

Lemma handlePrintPDF_running (p : Page) :
  isExcalLoading p = false ->
  handlePrintPDF p
  = {| classList := classList p ∖ {["dark"]};
       localStorage := <["theme" := "light"]> (localStorage p);
       excalContainer := excalContainer p;
       article := article p;
       exported := exported p;
       isPrinting := true;
       isExcalLoading := isExcalLoading p;
       previousThemeRef := Some (theme p);
       intervalActive := intervalActive p;
       timeoutPending := timeoutPending p;
       effects :=
         effects p
         ++ match excalContainer p with
            | Some c =>
                match expandos c !! "__forceLightRender" with
                | Some _ => [CallForceLightRender]
                | None => []
                end
            | None => []
            end
         ++ [DispatchBeforePrint; Wait 300; Print] |}.
Proof. unfold handlePrintPDF. by intros ->. Qed.

(** C9.  When the viewer is not loading, the print path records the
    document theme, shows the print dialog under the light theme, and the
    [afterprint] event restores the theme it recorded: the classes of the
    document are those before printing, and the stored preference is the
    theme before printing. *)
Theorem print_restores_theme (p : Page) :
  isExcalLoading p = false ->
  let printing := handlePrintPDF p in
  let after := handleAfterPrint printing in
  previousThemeRef printing = Some (theme p)
  /\ theme printing = "light"
  /\ localStorage printing !! "theme" = Some "light"
  /\ last (effects printing) = Some Print
  /\ theme after = theme p
  /\ classList after = classList p
  /\ localStorage after !! "theme" = Some (theme p).
Proof.
  intros Hload printing after. subst printing after.
  rewrite (handlePrintPDF_running p Hload).
  split; [done|]. split; [apply theme_light; set_solver|].
  split; [apply lookup_insert_eq|].
  split; [simpl; by rewrite !last_app|].
  unfold handleAfterPrint, theme. simpl.
  destruct (decide ("dark" ∈ classList p)) as [Hd|Hd].
  - rewrite (bool_decide_eq_true_2 _ Hd). simpl.
    split; [by rewrite bool_decide_eq_true_2 by set_solver|].
    split; [|apply lookup_insert_eq].
    apply leibniz_equiv. intros s. split; [set_solver|].
    destruct (decide (s = "dark")); set_solver.
  - rewrite (bool_decide_eq_false_2 _ Hd). simpl.
    split; [by rewrite bool_decide_eq_false_2 by set_solver|].
    split; [set_solver|apply lookup_insert_eq].
Qed.

Lemma print_restores_theme_witness :
  isExcalLoading Samples.dark_page = false
  /\ theme (handleAfterPrint (handlePrintPDF Samples.dark_page))
     = theme Samples.dark_page
  /\ classList (handleAfterPrint (handlePrintPDF Samples.dark_page))
     = classList Samples.dark_page.
Proof.
  split; [reflexivity|].
  pose proof (print_restores_theme Samples.dark_page eq_refl) as Hp.
  split; apply Hp.
Defined.


Section WithNumbers.
Context {N : NumberToString}.


End WithNumbers.



(** ** Further properties of the print path *)

(** The [afterprint] listener applies the theme recorded by the last
    print from the button, whatever the document shows by then, and keeps
    the record: with nothing recorded, or ["light"], a print from the
    browser's own menu leaves a dark page light. *)
Theorem afterprint_applies_record (p : Page) :
  let recorded :=
    if bool_decide (previousThemeRef p = Some "dark") then "dark"
    else "light" in
  theme (handleAfterPrint p) = recorded
  /\ localStorage (handleAfterPrint p) !! "theme" = Some recorded
  /\ previousThemeRef (handleAfterPrint p) = previousThemeRef p
  /\ isPrinting (handleAfterPrint p) = false.
Proof.
  unfold handleAfterPrint, theme. simpl.
  destruct (bool_decide (previousThemeRef p = Some "dark")); simpl.
  - rewrite bool_decide_eq_true_2 by set_solver.
    by rewrite lookup_insert_eq.
  - rewrite bool_decide_eq_false_2 by set_solver.
    by rewrite lookup_insert_eq.
Qed.

Lemma clickPDF_printing (p : Page) :
  isPrinting p = true -> clickPDF p = p.
Proof. unfold clickPDF. by intros ->. Qed.

Lemma print_cycle (p : Page) :
  isExcalLoading p = false ->
  classList (handleAfterPrint (handlePrintPDF p)) = classList p
  /\ localStorage (handleAfterPrint (handlePrintPDF p)) !! "theme"
     = Some (theme p).
Proof.
  intros Hload. rewrite (handlePrintPDF_running p Hload).
  unfold handleAfterPrint, theme. simpl.
  destruct (decide ("dark" ∈ classList p)) as [Hd|Hd].
  - rewrite (bool_decide_eq_true_2 _ Hd). simpl.
    split; [|apply lookup_insert_eq].
    apply leibniz_equiv. intros s. split; [set_solver|].
    destruct (decide (s = "dark")); set_solver.
  - rewrite (bool_decide_eq_false_2 _ Hd). simpl.
    split; [set_solver|apply lookup_insert_eq].
Qed.

(** The button is disabled while a print is under way: further clicks
    before [afterprint] change nothing, and the theme that comes back is
    the one before the first click. *)
Theorem clickPDF_repeated (p : Page) (n : nat) :
  isPrinting p = false -> isExcalLoading p = false ->
  Nat.iter (S n) clickPDF p = handlePrintPDF p
  /\ classList (handleAfterPrint (Nat.iter (S n) clickPDF p)) = classList p
  /\ localStorage (handleAfterPrint (Nat.iter (S n) clickPDF p)) !! "theme"
     = Some (theme p).
Proof.
  intros Hprint Hload.
  assert (Hiter : Nat.iter (S n) clickPDF p = handlePrintPDF p).
  { induction n as [|n IH].
    - simpl. unfold clickPDF. by rewrite Hprint, Hload.
    - change (Nat.iter (S (S n)) clickPDF p)
        with (clickPDF (Nat.iter (S n) clickPDF p)).
      rewrite IH. apply clickPDF_printing.
      by rewrite (handlePrintPDF_running p Hload). }
  rewrite Hiter. split; [done|]. by apply print_cycle.
Qed.

Lemma clickPDF_repeated_witness :
  Nat.iter 3 clickPDF Samples.dark_page = handlePrintPDF Samples.dark_page.
Proof.
  apply (clickPDF_repeated Samples.dark_page 2); reflexivity.
Defined.

(** ** The loading poll *)

Lemma poll_step_settled (p : Page) (e : PollEvent) :
  intervalActive p = false -> isExcalLoading p = false ->
  intervalActive (poll_step p e) = false
  /\ isExcalLoading (poll_step p e) = false.
Proof.
  intros Hi Hl. destruct e as [| |loading]; simpl.
  - unfold intervalTick. by rewrite Hi.
  - unfold timeoutFire. by destruct (timeoutPending p).
  - done.
Qed.

(** Once the poll has stopped with the buttons enabled (a tick saw the
    viewer idle, or the timeout fired), nothing the viewer does disables
    them again: the buttons stay enabled while the viewer reports that it
    is loading. *)
Theorem poll_settled (p : Page) (events : list PollEvent) :
  intervalActive p = false -> isExcalLoading p = false ->
  intervalActive (fold_left poll_step events p) = false
  /\ isExcalLoading (fold_left poll_step events p) = false.
Proof.
  revert p. induction events as [|e events IH]; intros p Hi Hl; [done|].
  simpl. destruct (poll_step_settled p e Hi Hl) as [Hi' Hl'].
  by apply IH.
Qed.

Lemma poll_settled_witness :
  let p := fold_left poll_step [ViewerLoading true; Tick; Tick]
             (timeoutFire Samples.dark_page) in
  isExcalLoading p = false /\ checkLoading p = true.
Proof.
  split; [|by vm_compute].
  apply (poll_settled (timeoutFire Samples.dark_page)); reflexivity.
Defined.

Lemma checkLoading_exposed (loading : bool) (p : Page) :
  is_Some (excalContainer p) ->
  checkLoading (viewerSetsLoading loading p) = loading.
Proof.
  intros [c Hc]. unfold checkLoading, viewerSetsLoading. simpl.
  rewrite Hc. simpl. by rewrite lookup_insert_eq.
Qed.

(** While the poll runs, a tick copies the loading state that the viewer
    exposed last, and stops the poll as soon as that state is idle; with
    no [data-excal] element a tick assumes that the viewer is loading. *)
Theorem intervalTick_tracks (loading : bool) (p : Page) :
  intervalActive p = true ->
  (is_Some (excalContainer p) ->
   isExcalLoading (intervalTick (viewerSetsLoading loading p)) = loading
   /\ intervalActive (intervalTick (viewerSetsLoading loading p)) = loading)
  /\ (excalContainer p = None -> isExcalLoading (intervalTick p) = true).
Proof.
  intros Hi. split.
  - intros Hc. unfold intervalTick.
    change (intervalActive (viewerSetsLoading loading p))
      with (intervalActive p).
    rewrite Hi. simpl. by rewrite checkLoading_exposed.
  - intros Hc. unfold intervalTick. rewrite Hi. simpl.
    unfold checkLoading. by rewrite Hc.
Qed.

Lemma intervalTick_tracks_witness :
  isExcalLoading
    (intervalTick (viewerSetsLoading true (mount Samples.dark_page))) = true.
Proof.
  apply (intervalTick_tracks true (mount Samples.dark_page)); [reflexivity|].
  by eexists.
Defined.

(** ** The name and the contents of a download *)

Lemma slug_char (c : ascii) :
  let c' := lower (if is_alnum c then c else "-"%char) in
  is_slug_char c' = true
  /\ lower (if is_alnum c' then c' else "-"%char) = c'.
Proof. destruct c as [[] [] [] [] [] [] [] []]; by vm_compute. Qed.

(** The name of a download keeps the length of the title, consists of
    lower-case letters, digits and [-] only, and is not changed by being
    made a name again. *)
Theorem slug_shape (title : string) :
  String.length (slug title) = String.length title
  /\ Forall (fun c => is_slug_char c = true)
            (list_ascii_of_string (slug title))
  /\ slug (slug title) = slug title.
Proof.
  unfold slug.
  rewrite !list_ascii_of_string_of_list_ascii.
  rewrite <- (string_of_list_ascii_of_string title) at 2.
  generalize (list_ascii_of_string title) as l. intros l.
  split; [|split].
  - induction l as [|c l IH]; simpl; [done|]. by rewrite IH.
  - induction l as [|c l IH]; simpl; [done|].
    constructor; [apply slug_char|done].
  - f_equal. induction l as [|c l IH]; simpl; [done|].
    f_equal; [apply slug_char|done].
Qed.

Section Saved.
Context {N : NumberToString}.

Lemma save_inv source title svg0 src name type svg :
  save source title svg0 = Saved src name type svg ->
  src = source
  /\ name = download_name title
  /\ type = "image/svg+xml;charset=utf-8"
  /\ svg = sized_clone svg0.
Proof. unfold save. by intros [= <- <- <- <-]. Qed.

Lemma sized_clone_attributes svg0 :
  is_Some (attributes (sized_clone svg0) !! "width")
  /\ is_Some (attributes (sized_clone svg0) !! "height")
  /\ is_Some (attributes (sized_clone svg0) !! "viewBox")
  /\ forall k, k <> "width" -> k <> "height" -> k <> "viewBox" ->
       attributes (sized_clone svg0) !! k = attributes svg0 !! k.
Proof.
  unfold sized_clone. simpl. repeat split.
  - rewrite lookup_insert_ne, lookup_insert_ne, lookup_insert_eq by done.
    by eexists.
  - rewrite lookup_insert_ne, lookup_insert_eq by done. by eexists.
  - rewrite lookup_insert_eq. by eexists.
  - intros k H1 H2 H3. by rewrite !lookup_insert_ne.
Qed.

(** Whatever is saved is named after the title, typed as SVG, and is a
    copy of an [svg] of the page with explicit [width], [height] and
    [viewBox] and its other attributes unchanged. *)
Theorem handleDownloadSVG_saved (title : string) (p : Page)
    src name type svg :
  handleDownloadSVG title p = Saved src name type svg ->
  name = slug title +:+ ".svg"
  /\ type = "image/svg+xml;charset=utf-8"
  /\ is_Some (attributes svg !! "width")
  /\ is_Some (attributes svg !! "height")
  /\ is_Some (attributes svg !! "viewBox")
  /\ exists svg0,
       (exported p = Some svg0
        \/ (exists c, excalContainer p = Some c /\ rendered c = Some svg0)
        \/ article p = Some (Some svg0))
       /\ forall k, k <> "width" -> k <> "height" -> k <> "viewBox" ->
            attributes svg !! k = attributes svg0 !! k.
Proof.
  unfold handleDownloadSVG, fallback, await_call. intros Hsaved.
  assert (Hgen : forall source svg0,
            save source title svg0 = Saved src name type svg ->
            (exported p = Some svg0
             \/ (exists c, excalContainer p = Some c /\ rendered c = Some svg0)
             \/ article p = Some (Some svg0)) ->
            name = slug title +:+ ".svg"
            /\ type = "image/svg+xml;charset=utf-8"
            /\ is_Some (attributes svg !! "width")
            /\ is_Some (attributes svg !! "height")
            /\ is_Some (attributes svg !! "viewBox")
            /\ exists svg0,
                 (exported p = Some svg0
                  \/ (exists c, excalContainer p = Some c
                                /\ rendered c = Some svg0)
                  \/ article p = Some (Some svg0))
                 /\ forall k, k <> "width" -> k <> "height" ->
                      k <> "viewBox" ->
                      attributes svg !! k = attributes svg0 !! k).
  { intros source svg0 (-> & -> & -> & ->)%save_inv Hfrom.
    destruct (sized_clone_attributes svg0) as (Hw & Hh & Hv & Hk).
    repeat split; try done. by exists svg0. }
  repeat case_match; simplify_eq; try done;
    (eapply Hgen; [eassumption|]); eauto.
Qed.

End Saved.

Lemma handleDownloadSVG_saved_witness :
  exists src name type svg,
    handleDownloadSVG (N := Samples.print_zero) "Mi Nota #1" Samples.dark_page
    = Saved src name type svg
    /\ name = "mi-nota--1.svg".
Proof.
  do 4 eexists. split; [by vm_compute|].
  apply (handleDownloadSVG_saved (N := Samples.print_zero) "Mi Nota #1"
           Samples.dark_page Rendered _ _ _ eq_refl).
Defined.

End ExportFacts.
